(** * The application class of [src/app.ts]

    [App] wires an Express application: it registers the baseline
    middleware, mounts the user routes, registers the exception filter,
    connects the storage and starts listening.  Everything it does is an
    effect on a collaborator (the Express application, the storage, the
    process object, the logger), so the embedding threads an explicit
    [World] through a small state-and-rejection monad and records every
    collaborator call in a [trace]. *)

From Stdlib Require Import ZArith Lia Ascii.
From stdpp Require Import base list strings pretty.

Local Open Scope Z_scope.

(** ** Values *)

(** How a promise ends: [await] either yields the value or rethrows. *)
Inductive Settled (Err A : Type) : Type :=
| Resolved (a : A)
| Rejected (e : Err).
Arguments Resolved {Err A} a.
Arguments Rejected {Err A} e.

(** [String(n)] and [`${n}`] for an integral JS number below 1e21 in
    magnitude (ports and status codes are): its decimal digits. *)
Definition Number_toString (n : Z) : string := pretty n.

(** [TServerConfig], the object [configService.get('server')] returns.
    Only its [port] is read. *)
Module TServerConfig.
Record t : Type := mk { port : Z }.
End TServerConfig.

(** What [app.use] is given in this file, one constructor per call site. *)
Inductive Handle : Type :=
| helmet                         (* helmet()                         line 54 *)
| urlencoded (extended : bool)   (* bodyParser.urlencoded({extended}) line 56 *)
| json                           (* bodyParser.json()                line 57 *)
| morgan (format : string)       (* morgan(format)                   line 60 *)
| userController_router          (* this.userController.router       line 67 *)
| exceptionFilter_catch.         (* exceptionFilter.catch, bound     line 74 *)

(** An entry of the Express stack: [app.use(fn)] mounts [fn] at "/". *)
Record Layer : Type := mkLayer { mount : string; handle : Handle }.

(** The closure given to [process.on('SIGINT', ...)] at line 84. *)
Inductive Listener : Type := shutdown.

(** The closure given to [app.listen] at line 95; it captures [this], of
    which it reads the port. *)
Inductive Callback : Type := started (port : Z).

Inductive Op : Type := Connect | Disconnect.

Inductive Process : Type :=
| Running
| Exited (code : Z)      (* process.exit(code) *)
| Interrupted            (* SIGINT without a listener: Node's default
                            handler ends the process *)
| Uncaught.              (* a rejection nobody handles: Node's default
                            (since version 15) raises it as an uncaught
                            error and ends the process with code 1 *)

(** The storage collaborator: [connect()] and [disconnect()] are async,
    each moves the storage to a new state and settles its promise. *)
Class MemoryStorage (Err St : Type) : Type := {
  connect : St -> Settled Err unit * St;
  disconnect : St -> Settled Err unit * St
}.

(** A storage double for concrete runs: it plays back a script of
    outcomes for [connect()] and one for [disconnect()], and resolves
    once a script is used up. *)
Record Script : Type := mkScript {
  connects : list (Settled string unit);
  disconnects : list (Settled string unit)
}.

Definition play (rs : list (Settled string unit))
  : Settled string unit * list (Settled string unit) :=
  match rs with
  | [] => (Resolved tt, [])
  | r :: rs' => (r, rs')
  end.

#[export] Instance scripted : MemoryStorage string Script := {
  connect s :=
    let (r, rs) := play (connects s) in (r, mkScript rs (disconnects s));
  disconnect s :=
    let (r, rs) := play (disconnects s) in (r, mkScript (connects s) rs)
}.

(** ** The access logger

    [morgan(format)] comes from the morgan package, whose documentation
    line 59 points to.  For a request that reaches it, it writes one line
    once the response is done: the format with every [:name] (a colon and two or more of
    the characters [-], [_], letters and digits) replaced by the value of
    that token, or by "-" when the token has no value.  The optional
    [[argument]] of a token, which the format of line 60 does not use, is
    not modelled. *)

(** What the two body parsers of lines 56-57 make of the body of a
    request: each takes up the bodies of its own content type and either
    accepts the payload or passes an error on (malformed, too large,
    ...). *)
Inductive Body : Type :=
| no_body
| urlencoded_body (accepted : bool)
| json_body (accepted : bool).

Record Request : Type := mkRequest {
  method : string;
  originalUrl : option string;   (* set by Express: the URL as received *)
  url : string;
  body : Body
}.

Record Response : Type := mkResponse {
  headersSent : bool;
  statusCode : Z
}.

Inductive Piece : Type :=
| Lit (c : ascii)
| Tok (name : string).

Definition is_word (c : ascii) : bool :=
  let n := nat_of_ascii c in
  ((48 <=? n) && (n <=? 57) || (65 <=? n) && (n <=? 90)
   || (97 <=? n) && (n <=? 122) || (n =? 95) || (n =? 45))%nat.

Fixpoint literal (s : string) : list Piece :=
  match s with
  | EmptyString => []
  | String c s' => Lit c :: literal s'
  end.

(** A colon followed by [name]: a token when [name] has two characters
    or more, plain text otherwise. *)
Definition close (name : string) : list Piece :=
  if (2 <=? String.length name)%nat then [Tok name]
  else Lit ":"%char :: literal name.

(** [cur] is the name read so far when the scan is inside a token. *)
Fixpoint scan (cur : option string) (s : string) : list Piece :=
  match s with
  | EmptyString =>
      match cur with Some name => close name | None => [] end
  | String c s' =>
      match cur with
      | Some name =>
          if is_word c then scan (Some (name +:+ String c EmptyString)) s'
          else close name ++
               (if Ascii.eqb c ":" then scan (Some EmptyString) s'
                else Lit c :: scan None s')
      | None =>
          if Ascii.eqb c ":" then scan (Some EmptyString) s'
          else Lit c :: scan None s'
      end
  end.

(** [a || b] on values that are strings or undefined: the empty string
    is falsy too. *)
Definition or_else (a : option string) (b : string) : string :=
  match a with
  | Some (String c s) => String c s
  | _ => b
  end.

(** The three predefined tokens the format uses. *)
Definition getMethodToken (req : Request) : option string :=
  Some (method req).

Definition getUrlToken (req : Request) : option string :=
  Some (or_else (originalUrl req) (url req)).

Definition getStatusToken (res : Response) : option string :=
  if headersSent res then Some (Number_toString (statusCode res)) else None.

(** [None] is a name without a token function: calling it throws. *)
Definition token (name : string) (req : Request) (res : Response)
  : option (option string) :=
  if String.eqb name "method" then Some (getMethodToken req)
  else if String.eqb name "url" then Some (getUrlToken req)
  else if String.eqb name "status" then Some (getStatusToken res)
  else None.

Fixpoint render (ps : list Piece) (req : Request) (res : Response)
  : option string :=
  match ps with
  | [] => Some EmptyString
  | Lit c :: ps' => String c <$> render ps' req res
  | Tok name :: ps' =>
      v ← token name req res;
      rest ← render ps' req res;
      Some (or_else v "-" +:+ rest)
  end.

(** The line [morgan(format)] writes for a finished request. *)
Definition morgan_line (format : string) (req : Request) (res : Response)
  : option string :=
  render (scan None format) req res.

(** *** The request on its way down the stack

    Express hands a request to the layers in the order of their
    registration.  A layer calls the next one, ends the response, or
    passes an error on; after an error only error handlers run, and
    without one they are skipped. *)
Inductive Step : Type :=
| Next     (* next()    *)
| Fail     (* next(err) *)
| Done.    (* the response is ended here *)

(** What is not in [app.ts]: which requests a mount path other than "/"
    takes, what the user routes do with a request, and what the
    exception filter does with an error. *)
Record Routing : Type := mkRouting {
  mounted : string -> Request -> bool;
  userController_step : Request -> Step;
  exceptionFilter_step : Request -> Step
}.

(** A layer mounted at "/" sees every request. *)
Definition applies (rt : Routing) (l : Layer) (req : Request) : bool :=
  if String.eqb (mount l) "/" then true else mounted rt (mount l) req.

(** What [morgan(format)] writes once the response is done; a format
    naming a token that does not exist writes nothing. *)
Definition written (format : string) (req : Request) (res : Response)
  : list string :=
  match morgan_line format req res with
  | Some line => [line]
  | None => []
  end.

(** The lines the access log gets for a request that enters the layers
    [ls]; [failed] says that an earlier layer passed an error on. *)
Fixpoint dispatch (rt : Routing) (ls : list Layer) (failed : bool)
    (req : Request) (res : Response) : list string :=
  match ls with
  | [] => []
  | l :: ls' =>
      if applies rt l req then
        match handle l, failed with
        | exceptionFilter_catch, true =>
            match exceptionFilter_step rt req with
            | Next => dispatch rt ls' false req res
            | Fail => dispatch rt ls' true req res
            | Done => []
            end
        | exceptionFilter_catch, false => dispatch rt ls' false req res
        | _, true => dispatch rt ls' true req res
        | helmet, false => dispatch rt ls' false req res
        | urlencoded _, false =>
            match body req with
            | urlencoded_body false => dispatch rt ls' true req res
            | _ => dispatch rt ls' false req res
            end
        | json, false =>
            match body req with
            | json_body false => dispatch rt ls' true req res
            | _ => dispatch rt ls' false req res
            end
        | morgan format, false =>
            written format req res ++ dispatch rt ls' false req res
        | userController_router, false =>
            match userController_step rt req with
            | Next => dispatch rt ls' false req res
            | Fail => dispatch rt ls' true req res
            | Done => []
            end
        end
      else dispatch rt ls' failed req res
  end.

Definition access_log (rt : Routing) (ls : list Layer)
    (req : Request) (res : Response) : list string :=
  dispatch rt ls false req res.

(** Following the spec's words, for comparison with [access_log]: the
    path of a URL is what comes before its query string, and the line is
    the method, the path and the status. *)
Fixpoint pathname (u : string) : string :=
  match u with
  | EmptyString => EmptyString
  | String c u' => if Ascii.eqb c "?" then EmptyString else String c (pathname u')
  end.

Definition method_path_status (req : Request) (res : Response) : string :=
  method req +:+ " " +:+ pathname (or_else (originalUrl req) (url req))
  +:+ " " +:+ Number_toString (statusCode res).

Section Application.

Context {Err St : Type} {memoryStorage : MemoryStorage Err St}.

(** Calls on the collaborators, in the order they happen. *)
Inductive Event : Type :=
| ConfigGet (key : string)                  (* configService.get(key)      *)
| Use (l : Layer)                           (* app.use(...)                *)
| Call (op : Op)                            (* memoryStorage.<op>() called *)
| Settle (op : Op) (r : Settled Err unit)   (* the awaited promise settled *)
| OnSigint (l : Listener)                   (* process.on('SIGINT', l)     *)
| Listen (port : Z)                         (* app.listen(port, cb)        *)
| Info (category message : string)          (* loggerService.info(..)      *)
| Exit (code : Z).                          (* process.exit(code)          *)

Record World : Type := mkWorld {
  config : string -> TServerConfig.t;  (* what configService.get answers now *)
  stack : list Layer;                  (* what app.use was given, in order;
                                          layers Express adds of its own
                                          are not listed *)
  listeners : list Listener;           (* process listeners of 'SIGINT' *)
  servers : list Z;                    (* ports of the servers app.listen made *)
  pending : list Callback;             (* 'listening' callbacks not yet run *)
  storage : St;
  process : Process;
  unhandled : list Err;                (* rejections nobody awaited *)
  trace : list Event
}.

(** ** The monad of (async) methods *)

Definition M (A : Type) : Type := World -> Settled Err A * World.

Definition ret {A} (a : A) : M A := fun w => (Resolved a, w).

Definition bind {A B} (m : M A) (k : A -> M B) : M B := fun w =>
  match m w with
  | (Resolved a, w') => k a w'
  | (Rejected e, w') => (Rejected e, w')
  end.

Notation "x <- m ;; k" := (bind m (fun x => k))
  (at level 100, m at next level, right associativity).
Notation "m ;; k" := (bind m (fun _ => k))
  (at level 100, right associativity).

(** ** Collaborator calls *)

Definition emit (es : list Event) (w : World) : World :=
  mkWorld (config w) (stack w) (listeners w) (servers w) (pending w)
          (storage w) (process w) (unhandled w) (trace w ++ es).

(** [express()]: a new application, to which nothing has been given
    yet. *)
Definition express : M unit := fun w =>
  (Resolved tt,
   mkWorld (config w) [] (listeners w) (servers w) (pending w)
           (storage w) (process w) (unhandled w) (trace w)).

Definition configService_get (key : string) : M TServerConfig.t := fun w =>
  (Resolved (config w key), emit [ConfigGet key] w).

Definition app_use (l : Layer) : M unit := fun w =>
  (Resolved tt,
   mkWorld (config w) (stack w ++ [l]) (listeners w) (servers w) (pending w)
           (storage w) (process w) (unhandled w) (trace w ++ [Use l])).

Definition with_storage (s : St) (w : World) : World :=
  mkWorld (config w) (stack w) (listeners w) (servers w) (pending w)
          s (process w) (unhandled w) (trace w).

(** [await this.memoryStorage.connect()] *)
Definition memoryStorage_connect : M unit := fun w =>
  let (r, s) := connect (storage w) in
  (r, emit [Call Connect; Settle Connect r] (with_storage s w)).

Definition process_on_SIGINT (l : Listener) : M unit := fun w =>
  (Resolved tt,
   mkWorld (config w) (stack w) (listeners w ++ [l]) (servers w) (pending w)
           (storage w) (process w) (unhandled w) (trace w ++ [OnSigint l])).

Definition app_listen (port : Z) (cb : Callback) : M unit := fun w =>
  (Resolved tt,
   mkWorld (config w) (stack w) (listeners w) (servers w ++ [port])
           (pending w ++ [cb])
           (storage w) (process w) (unhandled w) (trace w ++ [Listen port])).

Definition loggerService_info (category message : string) (w : World) : World :=
  emit [Info category message] w.

Definition process_exit (code : Z) (w : World) : World :=
  mkWorld (config w) (stack w) (listeners w) (servers w) (pending w)
          (storage w) (Exited code) (unhandled w) (trace w ++ [Exit code]).

(** ** class App *)

Record App : Type := mkApp { port : Z }.

(** constructor, lines 27-36 *)
Definition constructor : M App :=
  express ;;
  server <- configService_get "server" ;;
  ret (mkApp (TServerConfig.port server)).

(** useMiddleware, lines 53-61 *)
Definition useMiddleware (this : App) : M unit :=
  app_use (mkLayer "/" helmet) ;;
  app_use (mkLayer "/" (urlencoded true)) ;;
  app_use (mkLayer "/" json) ;;
  app_use (mkLayer "/" (morgan ":method :url :status")).

(** useRoutes, lines 66-68 *)
Definition useRoutes (this : App) : M unit :=
  app_use (mkLayer "/users" userController_router).

(** useExceptionFilters, lines 73-75 *)
Definition useExceptionFilters (this : App) : M unit :=
  app_use (mkLayer "/" exceptionFilter_catch).

(** useDatabase, lines 80-89 *)
Definition useDatabase (this : App) : M unit :=
  memoryStorage_connect ;;
  process_on_SIGINT shutdown.

(** listen, lines 94-98 *)
Definition listen (this : App) : M unit :=
  app_listen (port this) (started (port this)).

(** init, lines 41-48 *)
Definition init (this : App) : M unit :=
  useMiddleware this ;;
  useRoutes this ;;
  useExceptionFilters this ;;
  useDatabase this ;;
  listen this.

(** ** Events the host delivers *)

Definition unhandled_rejection (e : Err) (w : World) : World :=
  mkWorld (config w) (stack w) (listeners w) (servers w) (pending w)
          (storage w) (process w) (unhandled w ++ [e]) (trace w).

Definition interrupted (w : World) : World :=
  mkWorld (config w) (stack w) (listeners w) (servers w) (pending w)
          (storage w) Interrupted (unhandled w) (trace w).

Definition with_pending (cbs : list Callback) (w : World) : World :=
  mkWorld (config w) (stack w) (listeners w) (servers w) cbs
          (storage w) (process w) (unhandled w) (trace w).

(** The listener of lines 84-88 up to its [await]: it calls
    [disconnect()] and is suspended on the promise. *)
Definition shutdown_call (w : World) : Settled Err unit * World :=
  let (r, s) := disconnect (storage w) in
  (r, emit [Call Disconnect] (with_storage s w)).

(** The listener after its [await]: [process.exit(0)] when the promise
    resolved; when it rejected, the listener's own promise rejects, and
    nothing awaits that one: the rejection is left unhandled. *)
Definition shutdown_resume (r : Settled Err unit) (w : World) : World :=
  match r with
  | Resolved _ => process_exit 0 (emit [Settle Disconnect r] w)
  | Rejected e => unhandled_rejection e (emit [Settle Disconnect r] w)
  end.

(** [process.emit('SIGINT')] calls the listeners one after the other;
    each runs up to its [await]. *)
Fixpoint emit_SIGINT (ls : list Listener) (w : World)
  : list (Settled Err unit) * World :=
  match ls with
  | [] => ([], w)
  | shutdown :: ls' =>
      let (r, w1) := shutdown_call w in
      let (rs, w2) := emit_SIGINT ls' w1 in
      (r :: rs, w2)
  end.

(** The suspended listeners are resumed in turn, as long as the process
    is alive. *)
Fixpoint resume (rs : list (Settled Err unit)) (w : World) : World :=
  match rs with
  | [] => w
  | r :: rs' =>
      match process w with
      | Running => resume rs' (shutdown_resume r w)
      | _ => w
      end
  end.

(** Once the resumed listeners are through, the host looks at the
    rejections they left unhandled: [app.ts] neither catches them nor
    installs an 'unhandledRejection' handler, so a process that is still
    running and has got a new one ends as [Uncaught].  [before] is the
    list of unhandled rejections when the delivery began. *)
Definition uncaught (before : list Err) (w : World) : World :=
  match process w with
  | Running =>
      if (length before <? length (unhandled w))%nat
      then mkWorld (config w) (stack w) (listeners w) (servers w) (pending w)
                   (storage w) Uncaught (unhandled w) (trace w)
      else w
  | _ => w
  end.

(** Delivery of one interrupt signal. *)
Definition SIGINT (w : World) : World :=
  match process w with
  | Running =>
      match listeners w with
      | [] => interrupted w
      | ls =>
          let (rs, w1) := emit_SIGINT ls w in
          uncaught (unhandled w) (resume rs w1)
      end
  | _ => w
  end.

(** The callback of lines 95-97. *)
Definition run_callback (cb : Callback) (w : World) : World :=
  match cb with
  | started p =>
      loggerService_info "app"
        ("Server started listening on port " +:+ Number_toString p) w
  end.

(** A server reports that it is listening: its callback runs. *)
Definition listening (w : World) : World :=
  match pending w with
  | [] => w
  | cb :: cbs => run_callback cb (with_pending cbs w)
  end.

(** ** What [init] registers *)

Definition baseline : list Layer :=
  [ mkLayer "/" helmet; mkLayer "/" (urlencoded true); mkLayer "/" json;
    mkLayer "/" (morgan ":method :url :status") ].

Definition routes : list Layer := [ mkLayer "/users" userController_router ].

Definition filter_layer : Layer := mkLayer "/" exceptionFilter_catch.

Definition registrations : list Layer := baseline ++ routes ++ [filter_layer].

(** The events of one run of [init] whose [connect()] settles as [r]. *)
Definition startup (this : App) (r : Settled Err unit) : list Event :=
  (Use <$> registrations) ++ [Call Connect; Settle Connect r] ++
  match r with
  | Resolved _ => [OnSigint shutdown; Listen (port this)]
  | Rejected _ => []
  end.

(** How often [memoryStorage.<op>()] is called in a run. *)
Definition is_call (op : Op) (e : Event) : bool :=
  match e, op with
  | Call Connect, Connect | Call Disconnect, Disconnect => true
  | _, _ => false
  end.

Definition calls (op : Op) (es : list Event) : nat :=
  length (List.filter (is_call op) es).

(** The events a run added to the trace. *)
Definition since (w w' : World) : list Event :=
  drop (length (trace w)) (trace w').

(** The events of resuming the suspended listeners: the first one whose
    [disconnect()] resolved exits the process, and the others never run. *)
Fixpoint resumed (rs : list (Settled Err unit)) : list Event :=
  match rs with
  | [] => []
  | Resolved u :: _ => [Settle Disconnect (Resolved u); Exit 0]
  | Rejected e :: rs' => Settle Disconnect (Rejected e) :: resumed rs'
  end.

(** A process that has just started: nothing is registered yet. *)
Definition boot (cfg : string -> TServerConfig.t) (s : St) : World :=
  mkWorld cfg [] [] [] [] s Running [] [].

End Application.

Arguments Event : clear implicits.
Arguments World : clear implicits.

(** ** Concrete runs *)

(** A configuration whose server section says port 4000. *)
Definition config4000 (key : string) : TServerConfig.t := TServerConfig.mk 4000.

(** A fresh process whose storage plays the given scripts. *)
Definition fresh (cs ds : list (Settled string unit))
  : World string Script :=
  boot config4000 (mkScript cs ds).

Definition app4000 : App := mkApp 4000.

(** Sample requests: the user routes answer every request under
    "/users", and the exception filter answers every error. *)
Definition answering : Routing :=
  mkRouting (fun _ _ => true) (fun _ => Done) (fun _ => Done).

Definition get_with_query : Request :=
  mkRequest "GET" (Some "/users?limit=5") "/users?limit=5" no_body.

Definition post_unparsable : Request :=
  mkRequest "POST" (Some "/users") "/users" (json_body false).

Definition post_unanswered : Request :=
  mkRequest "POST" (Some "/users") "/users" (json_body true).

(** The world after [init] in a fresh process whose storage connects, and
    then settles [disconnect()] as the script [ds] says. *)
Definition started_up (ds : list (Settled string unit)) : World string Script :=
  (init app4000 (fresh [] ds)).2.

Section Properties.

Context {Err St : Type} {memoryStorage : MemoryStorage Err St}.

Implicit Types (w : World Err St) (this : App) (s : St) (e : Err).

(** Membership in a list that is written out. *)
Ltac not_listed H :=
  cbn in H;
  repeat (apply elem_of_cons in H as [H|H]; [discriminate H|]);
  by apply elem_of_nil in H.

Ltac in_middle := apply elem_of_app; right; apply elem_of_cons; by left.

(** ** Running [init] *)

Lemma since_app w w' es : trace w' = trace w ++ es -> since w w' = es.
Proof. intros H. unfold since. rewrite H. apply drop_app_length. Qed.

Lemma init_run this w :
  init this w =
  match connect (storage w) with
  | (Resolved _, s) =>
      (Resolved tt,
       mkWorld (config w) (stack w ++ registrations)
               (listeners w ++ [shutdown]) (servers w ++ [port this])
               (pending w ++ [started (port this)]) s (process w)
               (unhandled w) (trace w ++ startup this (Resolved tt)))
  | (Rejected e, s) =>
      (Rejected e,
       mkWorld (config w) (stack w ++ registrations) (listeners w)
               (servers w) (pending w) s (process w) (unhandled w)
               (trace w ++ startup this (Rejected e)))
  end.
Proof.
  destruct w as [cfg st ls sv pd s p u t].
  cbv [init useMiddleware useRoutes useExceptionFilters useDatabase listen
       bind app_use memoryStorage_connect process_on_SIGINT app_listen emit
       with_storage config stack listeners servers pending storage process
       unhandled trace].
  destruct (connect s) as [[[]|e] s']; cbn;
    rewrite <- ?app_assoc; reflexivity.
Qed.

(** An element that occurs only at the end of a list splits it there. *)
Lemma split_at_end {A} (P : A -> Prop) (body pre post : list A) (x y : A) :
  (forall z, z ∈ body -> ~ P z) -> P x ->
  pre ++ x :: post = body ++ [y] ->
  pre = body /\ x = y /\ post = [].
Proof.
  intros Hbody Hx Heq. destruct post as [|z post _] using rev_ind.
  - apply (app_inj_tail pre body x y) in Heq as [-> ->]. done.
  - exfalso. rewrite app_comm_cons, app_assoc in Heq.
    apply app_inj_tail in Heq as [<- _].
    apply (Hbody x); [in_middle|done].
Qed.

Lemma init_trace this w :
  trace (init this w).2 = trace w ++ startup this (connect (storage w)).1.
Proof.
  rewrite init_run. destruct (connect (storage w)) as [[[]|e] s]; reflexivity.
Qed.

Lemma init_stack this w :
  stack (init this w).2 = stack w ++ registrations.
Proof.
  rewrite init_run. destruct (connect (storage w)) as [[[]|e] s]; reflexivity.
Qed.

(** C1.  Every run of [init] adds its events in one fixed order: the four
    baseline middleware, the user routes, the exception filter, the call
    of [connect()], its settlement and, when it resolved, the interrupt
    listener and [listen]; so a [Listen] event always comes after the
    resolution of [connect()]. *)
Theorem init_order this w :
  let r := (connect (storage w)).1 in
  let es := since w (init this w).2 in
  es = (Use <$> baseline) ++ (Use <$> routes) ++ [Use filter_layer] ++
       [Call Connect; Settle Connect r] ++
       match r with
       | Resolved _ => [OnSigint shutdown; Listen (port this)]
       | Rejected _ => []
       end
  /\ forall pre p post,
       es = pre ++ Listen p :: post ->
       p = port this /\ post = [] /\
       pre = (Use <$> registrations) ++
             [Call Connect; Settle Connect (Resolved tt); OnSigint shutdown].
Proof.
  intros r es.
  assert (Hes : es = startup this r) by (apply since_app, init_trace).
  split; [exact Hes|].
  intros pre p post Hsplit. rewrite Hes in Hsplit. clear Hes es.
  destruct r as [[]|e].
  - symmetry in Hsplit.
    change (startup this (Resolved ()))
      with (((Use <$> registrations) ++
             [Call Connect; Settle Connect (Resolved tt); OnSigint shutdown])
            ++ [Listen (port this) : Event Err]) in Hsplit.
    apply (split_at_end (fun ev => exists q, ev = Listen q)) in Hsplit
      as (-> & [= ->] & ->); [done| |by eexists].
    intros z Hz [q ->]. not_listed Hz.
  - exfalso. assert (Hin : Listen p ∈ startup this (Rejected e))
      by (rewrite Hsplit; in_middle).
    not_listed Hin.
Qed.

(** C2.  When [connect()] rejects with [e], [init] rejects with the same
    [e].  After the registrations it has called [connect()] once and
    done nothing else: it has not called [listen], so there is no new
    server and no new pending callback, and the process is as it was. *)
Theorem init_connect_rejected this w (e : Err) (s : St) :
  connect (storage w) = (Rejected e, s) ->
  exists w',
    init this w = (Rejected e, w') /\
    since w w' = (Use <$> registrations) ++
                 [Call Connect; Settle Connect (Rejected e)] /\
    calls Connect (since w w') = 1%nat /\
    (forall p, Listen p ∉ since w w') /\
    servers w' = servers w /\ pending w' = pending w /\
    storage w' = s /\ unhandled w' = unhandled w /\ process w' = process w.
Proof.
  intros Hc. rewrite init_run, Hc. eexists. split; [reflexivity|].
  assert (Hs : forall w', trace w' = trace w ++ startup this (Rejected e) ->
             since w w' = startup this (Rejected e))
    by (intros; by apply since_app).
  rewrite Hs by reflexivity. cbn.
  repeat split. intros p Hin. not_listed Hin.
Qed.

(** ** Delivering the interrupt signal *)

Lemma since_refl w : since w w = [].
Proof. unfold since. by rewrite drop_all. Qed.

Lemma emit_SIGINT_run (ls : list Listener) w :
  let w' := (emit_SIGINT ls w).2 in
  trace w' = trace w ++ replicate (length ls) (Call Disconnect) /\
  process w' = process w /\ stack w' = stack w /\ servers w' = servers w /\
  pending w' = pending w /\ unhandled w' = unhandled w.
Proof.
  revert w. induction ls as [|[] ls IH]; intros w; cbn.
  - by rewrite app_nil_r.
  - unfold shutdown_call. destruct (disconnect (storage w)) as [r s].
    specialize (IH (emit [Call Disconnect] (with_storage s w))).
    destruct (emit_SIGINT ls _) as [rs w2]. cbn in *.
    destruct IH as (-> & -> & -> & -> & -> & ->).
    by rewrite <- app_assoc.
Qed.

Lemma resume_run (rs : list (Settled Err unit)) w :
  process w = Running ->
  trace (resume rs w) = trace w ++ resumed rs /\
  stack (resume rs w) = stack w /\ servers (resume rs w) = servers w /\
  pending (resume rs w) = pending w /\ storage (resume rs w) = storage w.
Proof.
  revert w. induction rs as [|[u|e] rs IH]; intros w Hrun; cbn [resume resumed].
  - by rewrite app_nil_r.
  - rewrite Hrun. destruct rs; cbn; by rewrite <- app_assoc.
  - rewrite Hrun.
    destruct (IH (shutdown_resume (Rejected e) w) Hrun) as (-> & -> & -> & -> & ->).
    cbn. by rewrite <- app_assoc.
Qed.

(** In the events of a delivery, an exit is the last one, has code 0 and
    directly follows a resolved [disconnect()]. *)
Lemma exit_guarded (rs : list (Settled Err unit)) (pfx pre post : list (Event Err)) c :
  (forall c', Exit c' ∉ pfx) ->
  pfx ++ resumed rs = pre ++ Exit c :: post ->
  c = 0 /\ post = [] /\
  exists pre', pre = pre' ++ [Settle Disconnect (Resolved tt)].
Proof.
  revert pfx. induction rs as [|[[]|e] rs IH]; intros pfx Hpfx Heq; cbn in Heq.
  - exfalso. apply (Hpfx c). rewrite app_nil_r in Heq. rewrite Heq. in_middle.
  - change (pfx ++ [?a; ?b]) with (pfx ++ [a] ++ [b]) in Heq.
    rewrite app_assoc in Heq. symmetry in Heq.
    apply (split_at_end (fun ev => exists q, ev = Exit q)) in Heq
      as (-> & [= ->] & ->); [eauto| |by eexists].
    intros z Hz [q ->]. apply elem_of_app in Hz as [Hz|Hz];
      [by apply (Hpfx q)|not_listed Hz].
  - apply (IH (pfx ++ [Settle Disconnect (Rejected e)])).
    + intros c' Hin. apply elem_of_app in Hin as [Hin|Hin];
        [by apply (Hpfx c')|not_listed Hin].
    + by rewrite <- app_assoc.
Qed.

Lemma uncaught_frame (before : list Err) w :
  trace (uncaught before w) = trace w /\
  stack (uncaught before w) = stack w /\
  listeners (uncaught before w) = listeners w /\
  servers (uncaught before w) = servers w /\
  pending (uncaught before w) = pending w /\
  storage (uncaught before w) = storage w /\
  unhandled (uncaught before w) = unhandled w.
Proof.
  unfold uncaught. destruct (process w); [|done..].
  by destruct (_ <? _)%nat.
Qed.

(** The events of any delivery: the calls of [disconnect()], one for each
    listener, then the resumptions. *)
Lemma SIGINT_events w :
  exists n rs,
    since w (SIGINT w) = replicate n (Call Disconnect) ++ resumed rs.
Proof.
  unfold SIGINT.
  destruct (process w) eqn:Hrun;
    try (exists 0%nat, []; by rewrite since_refl).
  destruct (listeners w) as [|l ls] eqn:Hl.
  { exists 0%nat, []. unfold since. cbn. by rewrite drop_all. }
  pose proof (emit_SIGINT_run (l :: ls) w) as Hemit.
  destruct (emit_SIGINT (l :: ls) w) as [rs w1]. cbn zeta in Hemit.
  destruct Hemit as (Ht & Hp & _). cbn [snd] in Ht, Hp.
  rewrite Hrun in Hp. destruct (resume_run rs w1 Hp) as (Hr & _).
  exists (length (l :: ls)), rs. apply since_app.
  rewrite (proj1 (uncaught_frame _ _)), Hr, Ht. by rewrite <- app_assoc.
Qed.

Lemma SIGINT_single w :
  process w = Running -> listeners w = [shutdown] ->
  SIGINT w =
  let (r, s) := disconnect (storage w) in
  uncaught (unhandled w)
    (shutdown_resume r (emit [Call Disconnect] (with_storage s w))).
Proof.
  intros Hrun Hl. unfold SIGINT. rewrite Hrun, Hl. cbn. unfold shutdown_call.
  destruct (disconnect (storage w)) as [r s]. cbn. by rewrite Hrun.
Qed.

Lemma SIGINT_resolved w (u : unit) s :
  process w = Running -> listeners w = [shutdown] ->
  disconnect (storage w) = (Resolved u, s) ->
  SIGINT w =
  mkWorld (config w) (stack w) (listeners w) (servers w) (pending w) s
          (Exited 0) (unhandled w)
          (trace w ++ [Call Disconnect; Settle Disconnect (Resolved u); Exit 0]).
Proof.
  intros Hrun Hl Hd. rewrite (SIGINT_single w Hrun Hl), Hd.
  unfold uncaught, shutdown_resume, process_exit, emit, with_storage. cbn.
  by rewrite <- !app_assoc.
Qed.

Lemma SIGINT_rejected w e s :
  process w = Running -> listeners w = [shutdown] ->
  disconnect (storage w) = (Rejected e, s) ->
  SIGINT w =
  mkWorld (config w) (stack w) (listeners w) (servers w) (pending w) s
          Uncaught (unhandled w ++ [e])
          (trace w ++ [Call Disconnect; Settle Disconnect (Rejected e)]).
Proof.
  intros Hrun Hl Hd. rewrite (SIGINT_single w Hrun Hl), Hd.
  assert (Hlt : (length (unhandled w) <? length (unhandled w ++ [e]))%nat
                = true)
    by (apply Nat.ltb_lt; rewrite length_app; cbn; lia).
  unfold uncaught, shutdown_resume, unhandled_rejection, emit, with_storage.
  cbn [config stack listeners servers pending storage process unhandled trace].
  rewrite Hrun, Hlt. by rewrite <- !app_assoc.
Qed.

Lemma init_resolved this w w1 :
  init this w = (Resolved tt, w1) ->
  process w1 = process w /\ listeners w1 = listeners w ++ [shutdown] /\
  servers w1 = servers w ++ [port this] /\
  pending w1 = pending w ++ [started (port this)] /\
  stack w1 = stack w ++ registrations /\
  since w w1 = startup this (Resolved tt).
Proof.
  rewrite init_run. destruct (connect (storage w)) as [[[]|e] s]; [|done].
  intros [= <-]. cbn. repeat split. by apply since_app.
Qed.

(** C3.  After a successful [init] of a freshly started process, one
    interrupt signal makes the listener call [disconnect()] exactly once;
    [process.exit(0)] follows the resolution of that call and nothing
    else happens: the servers, their pending callbacks and the
    middleware stack are left as they were.  When the call rejects
    instead, the listener requests no exit, and the process ends by the
    rejection that nobody handles. *)
Theorem sigint_after_init this w w1 :
  process w = Running -> listeners w = [] ->
  init this w = (Resolved tt, w1) ->
  let w2 := SIGINT w1 in
  let (r, s) := disconnect (storage w1) in
  calls Disconnect (since w1 w2) = 1%nat /\
  since w1 w2 = [Call Disconnect; Settle Disconnect r] ++
                match r with
                | Resolved _ => [Exit 0]
                | Rejected _ => []
                end /\
  process w2 = match r with
               | Resolved _ => Exited 0
               | Rejected _ => Uncaught
               end /\
  storage w2 = s /\
  servers w2 = servers w1 /\ pending w2 = pending w1 /\ stack w2 = stack w1.
Proof.
  intros Hrun Hl Hinit. apply init_resolved in Hinit as (Hp & Hl1 & _).
  rewrite Hrun in Hp. rewrite Hl in Hl1. cbn in Hl1. cbn zeta.
  destruct (disconnect (storage w1)) as [[u|e] s] eqn:Hd.
  - rewrite (SIGINT_resolved w1 u s Hp Hl1 Hd).
    rewrite (since_app w1 _
               [Call Disconnect; Settle Disconnect (Resolved u); Exit 0])
      by done.
    by repeat split.
  - rewrite (SIGINT_rejected w1 e s Hp Hl1 Hd).
    rewrite (since_app w1 _ [Call Disconnect; Settle Disconnect (Rejected e)])
      by done.
    by repeat split.
Qed.

(** C9.  When [connect()] rejects, [init] registers no interrupt
    listener.  In a process that had none, a later interrupt signal then
    finds no listener: [disconnect()] is not called, the storage is left
    alone and the process ends by the signal's default action. *)
Theorem no_listener_after_rejected_connect
    this w (e : Err) (s : St) :
  connect (storage w) = (Rejected e, s) ->
  let w1 := (init this w).2 in
  listeners w1 = listeners w /\
  (forall l, OnSigint l ∉ since w w1) /\
  (process w = Running -> listeners w = [] ->
   let w2 := SIGINT w1 in
   since w1 w2 = [] /\ calls Disconnect (since w1 w2) = 0%nat /\
   storage w2 = storage w1 /\ process w2 = Interrupted).
Proof.
  intros Hc. cbn zeta. rewrite init_run, Hc. cbn. split; [done|]. split.
  - intros l. rewrite (since_app w _ (startup this (Rejected e))) by done.
    intros Hin. not_listed Hin.
  - intros Hrun Hl. unfold SIGINT. cbn. rewrite Hrun, Hl. cbn.
    unfold since. cbn. by rewrite drop_all.
Qed.

(** C10.  When [disconnect()] rejects inside the interrupt listener, the
    listener does not catch the rejection and requests no exit: the
    rejection is left unhandled, and it is the host, not this listener,
    that ends the process for it.  In any delivery of the signal, in any
    world, an exit has code 0 and directly follows a resolved
    [disconnect()]. *)
Theorem disconnect_rejected_no_exit
    this w w1 (e : Err) (s : St) :
  process w = Running -> listeners w = [] ->
  init this w = (Resolved tt, w1) ->
  disconnect (storage w1) = (Rejected e, s) ->
  let w2 := SIGINT w1 in
  since w1 w2 = [Call Disconnect; Settle Disconnect (Rejected e)] /\
  (forall c, Exit c ∉ since w1 w2) /\
  (forall c, process w2 <> Exited c) /\
  process w2 = Uncaught /\
  unhandled w2 = unhandled w1 ++ [e] /\
  forall w' pre c post,
    since w' (SIGINT w') = pre ++ Exit c :: post ->
    c = 0 /\ post = [] /\
    exists pre', pre = pre' ++ [Settle Disconnect (Resolved tt)].
Proof.
  intros Hrun Hl Hinit Hd. apply init_resolved in Hinit as (Hp & Hl1 & _).
  rewrite Hrun in Hp. rewrite Hl in Hl1. cbn in Hl1. cbn zeta.
  rewrite (SIGINT_rejected w1 e s Hp Hl1 Hd).
  rewrite (since_app w1 _ [Call Disconnect; Settle Disconnect (Rejected e)])
    by done.
  split; [done|]. split; [intros c Hin; not_listed Hin|].
  split; [done|]. split; [done|]. split; [done|].
  clear. intros w pre c post.
  destruct (SIGINT_events w) as (n & rs & ->).
  apply exit_guarded. intros c' Hin.
  apply elem_of_replicate in Hin as [? _]. done.
Qed.

(** ** The port *)

Lemma no_config_read_in_delivery w key : ConfigGet key ∉ since w (SIGINT w).
Proof.
  destruct (SIGINT_events w) as (n & rs & ->). intros Hin.
  apply elem_of_app in Hin as [Hin|Hin].
  - apply elem_of_replicate in Hin as [? _]. done.
  - induction rs as [|[u|e] rs IH]; cbn in Hin; [by apply elem_of_nil in Hin| |].
    + not_listed Hin.
    + apply elem_of_cons in Hin as [Hin|Hin]; [done|by apply IH].
Qed.

(** C4.  The constructor asks the configuration once, for the server
    section, and keeps its [port].  Every [listen] of that application,
    in whatever world [init] runs later and whatever the configuration
    says by then, is given exactly that port; neither [init], nor the
    callback of [listen], nor the interrupt listener reads the
    configuration again, and no method gives back a changed [App]. *)
Theorem port_from_config w0 :
  exists this w0',
    constructor w0 = (Resolved this, w0') /\
    port this = TServerConfig.port (config w0 "server") /\
    since w0 w0' = [ConfigGet "server"] /\
    forall w,
      let w1 := (init this w).2 in
      (forall p, Listen p ∈ since w w1 ->
                 p = TServerConfig.port (config w0 "server")) /\
      ((connect (storage w)).1 = Resolved tt ->
       Listen (TServerConfig.port (config w0 "server")) ∈ since w w1) /\
      (forall key, ConfigGet key ∉ since w w1) /\
      (forall key, ConfigGet key ∉ since w1 (listening w1)) /\
      (forall key, ConfigGet key ∉ since w1 (SIGINT w1)).
Proof.
  exists (mkApp (TServerConfig.port (config w0 "server"))). eexists.
  split; [reflexivity|]. split; [reflexivity|].
  split; [apply since_app; reflexivity|].
  intros w w1. set (this := mkApp _) in *.
  assert (Hs : since w w1 = startup this (connect (storage w)).1)
    by apply since_app, init_trace.
  rewrite Hs. repeat split.
  - intros p Hin. destruct (connect (storage w)).1 as [[]|e]; cbn in Hin.
    + repeat (apply elem_of_cons in Hin as [Hin|Hin]; [by simplify_eq|]).
      by apply elem_of_nil in Hin.
    + not_listed Hin.
  - intros ->. cbn. do 9 apply list_elem_of_further. apply list_elem_of_here.
  - intros key Hin. destruct (connect (storage w)).1 as [[]|e]; not_listed Hin.
  - intros key Hin. unfold listening, since in Hin.
    destruct (pending w1) as [|[p] cbs]; cbn in Hin.
    + rewrite drop_all in Hin. by apply elem_of_nil in Hin.
    + rewrite drop_app_length in Hin. not_listed Hin.
  - intros key. apply no_config_read_in_delivery.
Qed.

(** ** The middleware stack *)

(** C5.  When [init] registers the exception filter, the four baseline
    middleware and the user routes are already on the stack, so the
    filter goes to the index that equals the length of the stack at that
    moment; [init] registers nothing after it, so it is the last layer
    when [init] is over. *)
Theorem exception_filter_last this w :
  let w1 := (bind (useMiddleware this) (fun _ => useRoutes this) w).2 in
  let w2 := (useExceptionFilters this w1).2 in
  stack w1 = stack w ++ baseline ++ routes /\
  stack w2 !! length (stack w1) = Some filter_layer /\
  length (stack w2) = S (length (stack w1)) /\
  stack (init this w).2 = stack w2 /\
  last (stack (init this w).2) = Some filter_layer.
Proof.
  rewrite init_stack. destruct w as [cfg st ls sv pd s p u t].
  cbv [useMiddleware useRoutes useExceptionFilters bind app_use stack snd].
  cbn zeta. rewrite <- !app_assoc. cbn [app].
  match goal with
  | |- context [?l ++ [?a; ?b; ?c; ?d; ?e; ?f]] =>
      replace (l ++ [a; b; c; d; e; f]) with ((l ++ [a; b; c; d; e]) ++ [f])
        by (by rewrite <- app_assoc)
  end.
  split; [done|]. split; [by apply list_lookup_middle|].
  split; [rewrite (length_app _ [_]); cbn; lia|].
  split; [by rewrite <- app_assoc|].
  unfold registrations. rewrite !app_assoc. apply last_snoc.
Qed.

Lemma append_empty_r (x : string) : x +:+ "" = x.
Proof.
  induction x as [|c x IH]; [done|].
  change (String c (x +:+ "") = String c x). by rewrite IH.
Qed.

Lemma Number_toString_not_empty (n : Z) : Number_toString n <> "".
Proof.
  assert (Hgo : forall x acc, acc <> "" -> pretty_N_go x acc <> "").
  { intros x. induction (N.lt_wf_0 x) as [x _ IH]; intros acc Hacc.
    assert (x = 0 \/ 0 < x)%N as [->|Hx] by lia; [by rewrite pretty_N_go_0|].
    rewrite pretty_N_go_step by done. apply IH; [by apply N.div_lt|done]. }
  unfold Number_toString, pretty, pretty_Z. destruct n as [|x|x]; [done| |done].
  unfold pretty, pretty_positive, pretty, pretty_N.
  rewrite decide_False by done. rewrite pretty_N_go_step by done.
  by apply Hgo.
Qed.

Lemma or_else_not_empty (x d : string) : x <> "" -> or_else (Some x) d = x.
Proof. by destruct x. Qed.

(** The line of the format of line 60, token by token. *)
Lemma morgan_line_tokens (req : Request) (res : Response) :
  morgan_line ":method :url :status" req res =
  Some (or_else (getMethodToken req) "-" +:+ " " +:+
        or_else (getUrlToken req) "-" +:+ " " +:+
        or_else (getStatusToken res) "-").
Proof.
  unfold morgan_line.
  replace (scan None ":method :url :status")
    with [Tok "method"; Lit " "%char; Tok "url"; Lit " "%char; Tok "status"]
    by (vm_compute; reflexivity).
  cbn [render].
  replace (token "method" req res) with (Some (getMethodToken req)) by reflexivity.
  replace (token "url" req res) with (Some (getUrlToken req)) by reflexivity.
  replace (token "status" req res) with (Some (getStatusToken res)) by reflexivity.
  cbn [mbind option_bind fmap option_fmap option_map].
  rewrite append_empty_r. reflexivity.
Qed.

(** The layers [init] registers: a request with a body that a parser
    turns down passes the access logger by, any other request gets its
    line, and what the user routes and the exception filter do changes
    nothing about it. *)
Lemma dispatch_registrations (rt : Routing) (req : Request) (res : Response) :
  dispatch rt registrations false req res =
  match body req with
  | urlencoded_body false | json_body false => []
  | _ => written ":method :url :status" req res
  end.
Proof.
  unfold registrations, baseline, routes, filter_layer.
  cbn [app dispatch applies mount handle String.eqb Ascii.eqb Bool.eqb].
  destruct (body req) as [|[]|[]], (mounted rt "/users" req),
    (userController_step rt req), (exceptionFilter_step rt req);
    by rewrite ?app_nil_r.
Qed.

(** C6.  A request that reaches the layers [init] registers, and whose
    body the body parsers do not turn down, gets exactly one line in the
    access log: its method, its URL as received (the path together with
    the query string) and the status code of the response, in that
    order, with one space between them; when the headers of the response
    were never sent, "-" stands in the place of the status. *)
Theorem access_log_format this w (rt : Routing)
    (req : Request) (res : Response) (u : string) :
  body req <> urlencoded_body false ->
  body req <> json_body false ->
  method req <> "" ->
  originalUrl req = Some u -> u <> "" ->
  access_log rt (drop (length (stack w)) (stack (init this w).2)) req res =
  [ method req +:+ " " +:+ u +:+ " " +:+
    (if headersSent res then Number_toString (statusCode res) else "-") ].
Proof.
  intros Hform Hjson Hm Hu Hne.
  rewrite init_stack, drop_app_length. unfold access_log.
  rewrite dispatch_registrations.
  assert (Hline : written ":method :url :status" req res =
    [ method req +:+ " " +:+ u +:+ " " +:+
      (if headersSent res then Number_toString (statusCode res) else "-") ]).
  { unfold written. rewrite morgan_line_tokens.
    unfold getMethodToken, getUrlToken, getStatusToken. rewrite Hu.
    rewrite (or_else_not_empty (method req)) by done.
    rewrite (or_else_not_empty (or_else (Some u) (url req)))
      by (by rewrite or_else_not_empty).
    rewrite (or_else_not_empty u) by done.
    destruct (headersSent res); [|done].
    by rewrite or_else_not_empty by apply Number_toString_not_empty. }
  destruct (body req) as [|[]|[]]; done.
Qed.

(** X6.  The access logger is registered after the two body parsers, so
    a request whose body one of them turns down never reaches it: the
    layers [init] registers write no line for that request, whatever the
    exception filter answers. *)
Theorem unparsed_request_not_logged this w (rt : Routing)
    (req : Request) (res : Response) :
  body req = urlencoded_body false \/ body req = json_body false ->
  access_log rt (drop (length (stack w)) (stack (init this w).2)) req res = [].
Proof.
  intros Hbody. rewrite init_stack, drop_app_length. unfold access_log.
  rewrite dispatch_registrations. by destruct Hbody as [-> | ->].
Qed.

(** ** The log *)

(** C7.  A successful [init] of a process without pending callbacks logs
    nothing itself and leaves one callback with the server; when the
    server reports that it is listening, that callback logs once, at
    level info, with the category "app" and the text "Server started
    listening on port " followed by the port, and no callback is left
    that could log again. *)
Theorem listening_logged_once this w w1 :
  pending w = [] ->
  init this w = (Resolved tt, w1) ->
  (forall c m, Info c m ∉ since w w1) /\
  pending w1 = [started (port this)] /\
  since w1 (listening w1) =
    [Info "app"
       ("Server started listening on port " +:+ Number_toString (port this))] /\
  pending (listening w1) = [] /\
  listening (listening w1) = listening w1.
Proof.
  intros Hp Hinit. apply init_resolved in Hinit as (_ & _ & _ & Hp1 & _ & Hs).
  rewrite Hp in Hp1. cbn in Hp1. rewrite Hs.
  split; [intros c m Hin; not_listed Hin|]. split; [done|].
  assert (Hl : listening w1 =
               run_callback (started (port this)) (with_pending [] w1))
    by (unfold listening; by rewrite Hp1).
  split; [by rewrite Hl; apply since_app|]. split; [by rewrite Hl|].
  rewrite Hl. reflexivity.
Qed.

(** ** Calling [init] again *)

(** C8.  [init] has no guard against a second call.  After a first
    successful [init], a second one on the same application runs every
    step again: it registers the six layers once more, calls
    [connect()] once more and, when that call resolves, registers a
    second interrupt listener and starts a second server on the same
    port.  The world it leaves is never the one it found, so two calls
    in a row are not one call. *)
Theorem init_twice this w w1 :
  init this w = (Resolved tt, w1) ->
  let r := (connect (storage w1)).1 in
  let w2 := (init this w1).2 in
  bind (init this) (fun _ => init this) w = init this w1 /\
  bind (init this) (fun _ => init this) w <> init this w /\
  w2 <> w1 /\
  since w1 w2 = startup this r /\
  calls Connect (since w w2) = 2%nat /\
  stack w2 = stack w ++ registrations ++ registrations /\
  storage w2 = (connect (storage w1)).2 /\
  (r = Resolved tt ->
   init this w1 = (Resolved tt, w2) /\
   since w w2 = startup this (Resolved tt) ++ startup this (Resolved tt) /\
   listeners w2 = listeners w ++ [shutdown; shutdown] /\
   servers w2 = servers w ++ [port this; port this] /\
   pending w2 = pending w ++ [started (port this); started (port this)]).
Proof.
  intros Hinit r w2.
  assert (Hbind : bind (init this) (fun _ => init this) w = init this w1)
    by (unfold bind; by rewrite Hinit).
  assert (Hstack : stack w2 = stack w1 ++ registrations) by apply init_stack.
  assert (Hne : w2 <> w1).
  { intros Heq. rewrite Heq in Hstack. apply (f_equal length) in Hstack.
    rewrite length_app in Hstack. cbn in Hstack. lia. }
  assert (Htr : trace w2 = trace w1 ++ startup this r) by apply init_trace.
  pose proof (init_resolved _ _ _ Hinit) as (Hp & Hl & Hsv & Hpd & Hst & Hs).
  assert (Htr1 : trace w1 = trace w ++ startup this (Resolved tt)).
  { pose proof (init_trace this w) as H. rewrite Hinit in H. cbn [snd] in H.
    rewrite H. f_equal. rewrite init_run in Hinit.
    destruct (connect (storage w)) as [[[]|e] s]; [done|discriminate]. }
  split; [exact Hbind|]. split.
  { rewrite Hbind, Hinit. intros Heq.
    apply Hne. unfold w2. by rewrite Heq. }
  split; [exact Hne|]. split; [by apply since_app|]. split.
  { rewrite (since_app w w2 (startup this (Resolved tt) ++ startup this r))
      by (rewrite Htr, Htr1; by rewrite <- app_assoc).
    by destruct r as [[]|e]. }
  split; [by rewrite Hstack, Hst, <- app_assoc|]. split.
  { unfold w2. rewrite init_run.
    by destruct (connect (storage w1)) as [[[]|e] s]. }
  intros Hr. unfold w2, r in *. rewrite init_run in *.
  destruct (connect (storage w1)) as [[[]|e] s]; [|discriminate]. cbn.
  split; [done|]. split.
  { apply since_app. cbn. rewrite Htr1. by rewrite <- app_assoc. }
  rewrite Hl, Hsv, Hpd, <- !app_assoc. done.
Qed.

(** ** More about the interrupt listener *)

Lemma calls_app (op : Op) (es1 es2 : list (Event Err)) :
  calls op (es1 ++ es2) = (calls op es1 + calls op es2)%nat.
Proof. unfold calls. by rewrite List.filter_app, length_app. Qed.

Lemma calls_replicate (n : nat) :
  calls Disconnect (replicate n (Call Disconnect : Event Err)) = n.
Proof. induction n as [|n IH]; [done|]. unfold calls in *. cbn. by rewrite IH. Qed.

Lemma calls_resumed (op : Op) (rs : list (Settled Err unit)) :
  calls op (resumed rs) = 0%nat.
Proof.
  induction rs as [|[u|e] rs IH]; [done|by destruct op|].
  unfold calls in *. by destruct op.
Qed.

Lemma emit_SIGINT_listeners (ls : list Listener) w :
  listeners (emit_SIGINT ls w).2 = listeners w.
Proof.
  revert w. induction ls as [|[] ls IH]; intros w; cbn; [done|].
  unfold shutdown_call. destruct (disconnect (storage w)) as [r s].
  specialize (IH (emit [Call Disconnect] (with_storage s w))).
  destruct (emit_SIGINT ls _) as [rs w2]. exact IH.
Qed.

Lemma resume_listeners (rs : list (Settled Err unit)) w :
  listeners (resume rs w) = listeners w.
Proof.
  revert w. induction rs as [|r rs IH]; intros w; cbn; [done|].
  destruct (process w); [|done..]. rewrite IH. by destruct r.
Qed.

(** X1.  The listener is registered with [process.on], so a delivery
    never removes it, and every registered listener calls
    [disconnect()]: a process that went through [init] successfully
    [n] times calls it [n] times on one signal. *)
Theorem sigint_calls_every_listener w :
  process w = Running ->
  calls Disconnect (since w (SIGINT w)) = length (listeners w) /\
  listeners (SIGINT w) = listeners w.
Proof.
  intros Hrun. unfold SIGINT. rewrite Hrun.
  destruct (listeners w) as [|l ls] eqn:Hl.
  { split; [|done]. unfold since. cbn. by rewrite drop_all. }
  pose proof (emit_SIGINT_run (l :: ls) w) as Hemit.
  pose proof (emit_SIGINT_listeners (l :: ls) w) as Hls.
  destruct (emit_SIGINT (l :: ls) w) as [rs w1]. cbn zeta in Hemit.
  destruct Hemit as (Ht & Hp & _). cbn [snd] in Ht, Hp, Hls.
  rewrite Hrun in Hp. destruct (resume_run rs w1 Hp) as (Hr & _).
  destruct (uncaught_frame (unhandled w) (resume rs w1)) as (Hut & _ & Hul & _).
  split; [|by rewrite Hul, resume_listeners, Hls].
  rewrite (since_app w _ (replicate (length (l :: ls)) (Call Disconnect)
                          ++ resumed rs))
    by (rewrite Hut, Hr, Ht; by rewrite <- app_assoc).
  rewrite calls_app, calls_replicate, calls_resumed. lia.
Qed.

(** ** More about [init] *)


(** X5.  Whatever [connect()] does, [init] never ends the process and
    never calls [disconnect()]: it leaves the configuration, the
    process status and the unhandled rejections alone, and changes the
    storage by one [connect()] only. *)
Theorem init_frame this w :
  let w1 := (init this w).2 in
  config w1 = config w /\
  process w1 = process w /\
  unhandled w1 = unhandled w /\
  storage w1 = (connect (storage w)).2 /\
  calls Connect (since w w1) = 1%nat /\
  calls Disconnect (since w w1) = 0%nat /\
  (forall c, Exit c ∉ since w w1).
Proof.
  cbn zeta.
  rewrite (since_app w _ (startup this (connect (storage w)).1))
    by apply init_trace.
  rewrite init_run.
  destruct (connect (storage w)) as [[[]|e] s]; cbn;
    repeat split; intros c Hin; not_listed Hin.
Qed.

End Properties.

(** ** The theorems on concrete runs *)

Lemma init_connect_rejected_witness :
  connect (storage (fresh [Rejected "down"] [])) =
    (Rejected "down", mkScript [] []) /\
  exists w',
    init app4000 (fresh [Rejected "down"] []) = (Rejected "down", w') /\
    calls Connect (since (fresh [Rejected "down"] []) w') = 1%nat /\
    servers w' = [].
Proof.
  assert (Hc : connect (storage (fresh [Rejected "down"] [])) =
               (Rejected "down", mkScript [] [])) by reflexivity.
  split; [exact Hc|].
  destruct (init_connect_rejected app4000 _ _ _ Hc)
    as (w' & Hinit & _ & Hcalls & _ & Hservers & _).
  exists w'. repeat split; assumption.
Defined.

Lemma sigint_after_init_witness :
  process (fresh [] []) = Running /\
  listeners (fresh [] []) = [] /\
  init app4000 (fresh [] []) = (Resolved tt, started_up []) /\
  calls Disconnect (since (started_up []) (SIGINT (started_up []))) = 1%nat /\
  since (started_up []) (SIGINT (started_up [])) =
    [Call Disconnect; Settle Disconnect (Resolved tt); Exit 0] /\
  process (SIGINT (started_up [])) = Exited 0 /\
  storage (SIGINT (started_up [])) = mkScript [] [] /\
  servers (SIGINT (started_up [])) = [4000] /\
  pending (SIGINT (started_up [])) = [started 4000] /\
  stack (SIGINT (started_up [])) = registrations.
Proof.
  assert (Hp : process (fresh [] []) = Running) by reflexivity.
  assert (Hl : listeners (fresh [] []) = []) by reflexivity.
  assert (Hi : init app4000 (fresh [] []) = (Resolved tt, started_up []))
    by (vm_compute; reflexivity).
  split; [exact Hp|]. split; [exact Hl|]. split; [exact Hi|].
  exact (sigint_after_init app4000 _ _ Hp Hl Hi).
Defined.

Lemma listening_logged_once_witness :
  pending (fresh [] []) = [] /\
  init app4000 (fresh [] []) = (Resolved tt, started_up []) /\
  since (started_up []) (listening (started_up [])) =
    [Info "app" "Server started listening on port 4000"].
Proof.
  assert (Hp : pending (fresh [] []) = []) by reflexivity.
  assert (Hi : init app4000 (fresh [] []) = (Resolved tt, started_up []))
    by (vm_compute; reflexivity).
  split; [exact Hp|]. split; [exact Hi|].
  exact (proj1 (proj2 (proj2 (listening_logged_once app4000 _ _ Hp Hi)))).
Defined.

Lemma init_twice_witness :
  init app4000 (fresh [] []) = (Resolved tt, started_up []) /\
  (init app4000 (started_up [])).2 <> started_up [] /\
  stack (init app4000 (started_up [])).2 = registrations ++ registrations /\
  servers (init app4000 (started_up [])).2 = [4000; 4000] /\
  listeners (init app4000 (started_up [])).2 = [shutdown; shutdown].
Proof.
  assert (Hi : init app4000 (fresh [] []) = (Resolved tt, started_up []))
    by (vm_compute; reflexivity).
  split; [exact Hi|].
  destruct (init_twice app4000 _ _ Hi)
    as (_ & _ & Hne & _ & _ & Hstack & _ & Hres).
  assert (Hr : (connect (storage (started_up []))).1 = Resolved tt)
    by (vm_compute; reflexivity).
  destruct (Hres Hr) as (_ & _ & Hl & Hsv & _).
  repeat split; assumption.
Defined.

Lemma no_listener_after_rejected_connect_witness :
  connect (storage (fresh [Rejected "down"] [])) =
    (Rejected "down", mkScript [] []) /\
  listeners (init app4000 (fresh [Rejected "down"] [])).2 = [] /\
  process (SIGINT (init app4000 (fresh [Rejected "down"] [])).2) = Interrupted.
Proof.
  assert (Hc : connect (storage (fresh [Rejected "down"] [])) =
               (Rejected "down", mkScript [] [])) by reflexivity.
  split; [exact Hc|].
  destruct (no_listener_after_rejected_connect app4000 _ _ _ Hc)
    as (Hl & _ & Hsig).
  destruct (Hsig eq_refl eq_refl) as (_ & _ & _ & Hp).
  split; assumption.
Defined.

Lemma disconnect_rejected_no_exit_witness :
  process (fresh [] [Rejected "busy"]) = Running /\
  listeners (fresh [] [Rejected "busy"]) = [] /\
  init app4000 (fresh [] [Rejected "busy"]) =
    (Resolved tt, started_up [Rejected "busy"]) /\
  disconnect (storage (started_up [Rejected "busy"])) =
    (Rejected "busy", mkScript [] []) /\
  since (started_up [Rejected "busy"]) (SIGINT (started_up [Rejected "busy"])) =
    [Call Disconnect; Settle Disconnect (Rejected "busy")] /\
  process (SIGINT (started_up [Rejected "busy"])) = Uncaught /\
  unhandled (SIGINT (started_up [Rejected "busy"])) = ["busy"].
Proof.
  assert (Hp : process (fresh [] [Rejected "busy"]) = Running) by reflexivity.
  assert (Hl : listeners (fresh [] [Rejected "busy"]) = []) by reflexivity.
  assert (Hi : init app4000 (fresh [] [Rejected "busy"]) =
               (Resolved tt, started_up [Rejected "busy"]))
    by (vm_compute; reflexivity).
  assert (Hd : disconnect (storage (started_up [Rejected "busy"])) =
               (Rejected "busy", mkScript [] []))
    by (vm_compute; reflexivity).
  split; [exact Hp|]. split; [exact Hl|]. split; [exact Hi|].
  split; [exact Hd|].
  destruct (disconnect_rejected_no_exit app4000 _ _ _ _ Hp Hl Hi Hd)
    as (Hs & _ & _ & Hp2 & Hu & _).
  repeat split; assumption.
Defined.

(** ** Sample runs *)

Example access_line_sent :
  morgan_line ":method :url :status"
    (mkRequest "GET" (Some "/users?limit=5") "/?limit=5" no_body)
    (mkResponse true 200)
  = Some "GET /users?limit=5 200".
Proof. vm_compute. reflexivity. Qed.

Example access_line_not_sent :
  morgan_line ":method :url :status"
    (mkRequest "POST" (Some "/users") "/" no_body) (mkResponse false 200)
  = Some "POST /users -".
Proof. vm_compute. reflexivity. Qed.

Example scan_short_name :
  scan None ":a :ab" = [Lit ":"%char; Lit "a"%char; Lit " "%char; Tok "ab"].
Proof. vm_compute. reflexivity. Qed.

Example startup_trace :
  trace (started_up []) =
  [ Use (mkLayer "/" helmet); Use (mkLayer "/" (urlencoded true));
    Use (mkLayer "/" json); Use (mkLayer "/" (morgan ":method :url :status"));
    Use (mkLayer "/users" userController_router);
    Use (mkLayer "/" exceptionFilter_catch);
    Call Connect; Settle Connect (Resolved tt); OnSigint shutdown;
    Listen 4000 ].
Proof. vm_compute. reflexivity. Qed.

Example constructor_reads_port :
  (constructor (fresh [] [])).1 = Resolved (mkApp 4000).
Proof. reflexivity. Qed.

(** With two listeners, left by two calls of [init], both call
    [disconnect()] before either is resumed. *)
Example sigint_two_listeners :
  since (init app4000 (started_up [Rejected "busy"])).2
        (SIGINT (init app4000 (started_up [Rejected "busy"])).2) =
  [ Call Disconnect; Call Disconnect; Settle Disconnect (Rejected "busy");
    Settle Disconnect (Resolved tt); Exit 0 ].
Proof. vm_compute. reflexivity. Qed.

(** ** The further theorems on concrete runs *)

Lemma sigint_calls_every_listener_witness :
  process (init app4000 (started_up [])).2 = Running /\
  calls Disconnect
    (since (init app4000 (started_up [])).2
           (SIGINT (init app4000 (started_up [])).2)) = 2%nat.
Proof.
  assert (Hp : process (init app4000 (started_up [])).2 = Running)
    by (vm_compute; reflexivity).
  split; [exact Hp|].
  exact (proj1 (sigint_calls_every_listener _ Hp)).
Defined.


(** ** The access log on sample requests *)

Lemma access_log_format_witness :
  body get_with_query <> urlencoded_body false /\
  body get_with_query <> json_body false /\
  method get_with_query <> "" /\
  originalUrl get_with_query = Some "/users?limit=5" /\
  "/users?limit=5" <> "" /\
  access_log answering
    (drop (length (stack (fresh [] []))) (stack (init app4000 (fresh [] [])).2))
    get_with_query (mkResponse true 200)
  = ["GET /users?limit=5 200"].
Proof.
  assert (H1 : body get_with_query <> urlencoded_body false) by discriminate.
  assert (H2 : body get_with_query <> json_body false) by discriminate.
  assert (H3 : method get_with_query <> "") by discriminate.
  assert (H4 : originalUrl get_with_query = Some "/users?limit=5")
    by reflexivity.
  assert (H5 : "/users?limit=5" <> "") by discriminate.
  repeat (split; [assumption|]).
  exact (access_log_format app4000 (fresh [] []) answering get_with_query
           (mkResponse true 200) "/users?limit=5" H1 H2 H3 H4 H5).
Defined.

(** The access log is not "method path status" for every request: the
    query string is part of the line, a request with an unparsable body
    gets no line, and a response that never sent its headers has "-" for
    a status. *)
Lemma access_log_not_method_path_status :
  access_log answering (stack (started_up []))
    get_with_query (mkResponse true 200)
  <> [method_path_status get_with_query (mkResponse true 200)] /\
  access_log answering (stack (started_up []))
    post_unparsable (mkResponse true 400)
  <> [method_path_status post_unparsable (mkResponse true 400)] /\
  access_log answering (stack (started_up []))
    post_unanswered (mkResponse false 200)
  <> [method_path_status post_unanswered (mkResponse false 200)].
Proof. vm_compute. repeat split; discriminate. Qed.

Lemma unparsed_request_not_logged_witness :
  (body post_unparsable = urlencoded_body false \/
   body post_unparsable = json_body false) /\
  access_log answering
    (drop (length (stack (fresh [] []))) (stack (init app4000 (fresh [] [])).2))
    post_unparsable (mkResponse true 400)
  = [].
Proof.
  assert (H : body post_unparsable = urlencoded_body false \/
              body post_unparsable = json_body false) by (right; reflexivity).
  split; [exact H|].
  exact (unparsed_request_not_logged app4000 (fresh [] []) answering
           post_unparsable (mkResponse true 400) H).
Defined.

Example access_log_sample_lines :
  access_log answering (stack (started_up []))
    get_with_query (mkResponse true 200) = ["GET /users?limit=5 200"] /\
  method_path_status get_with_query (mkResponse true 200) = "GET /users 200" /\
  access_log answering (stack (started_up []))
    post_unparsable (mkResponse true 400) = [] /\
  access_log answering (stack (started_up []))
    post_unanswered (mkResponse false 200) = ["POST /users -"].
Proof. vm_compute. repeat split. Qed.
